(** * TinyRA thread store, message hook and the reflection termination manager

    A shallow embedding of
    - [src/samples/apps/tinyRA/tinyra/tui.py]: the [chat_history] table and
      [insert_chat_message], [fetch_chat_history], [fetch_row], the reply rule
      [terminate_on_consecutive_empty], the hook [post_snippet_and_record_history],
      [generate_response_process], [TinyRA.handle_input], the state
      extraction of [Profiler.profile_message] and the message classes of
      [ChatScreen.compose];
    - [src/autogen/experimental/terminations/reflection.py]:
      [ReflectionTerminationManager]. *)

From Stdlib Require Import String Ascii List ZArith Lia Bool.
Import ListNotations.
Open Scope Z_scope.
Set Warnings "-register-all".

(** ** Python strings

    A Python [str] is a sequence of Unicode code points; [len] and slicing
    count code points. *)
Definition pystr := list Z.

(** An ASCII literal as a Python string. *)
Definition u (s : string) : pystr :=
  map (fun a => Z.of_nat (nat_of_ascii a)) (list_ascii_of_string s).

Definition str_eqb (a b : pystr) : bool :=
  if list_eq_dec Z.eq_dec a b then true else false.

(** ** Python exceptions raised by the modelled code *)
Inductive exc :=
| ValueError
| AttributeError
| AssertionError
| IndexError.

(** ** The [chat_history] table

    One row per stored message: [(root_id, id, role, content)]; the table is
    a list of rows in insertion (rowid) order, which is the order in which
    an unordered [SELECT] returns them. *)
Record row := mk_row {
  root_id : Z;
  id : Z;
  role : pystr;
  content : pystr
}.

Definition store := list row.

(** A state monad over the table, with Python exceptions. *)
Definition M (A : Type) := store -> (A + exc) * store.

Definition ret {A} (a : A) : M A := fun db => (inl a, db).
Definition raise {A} (e : exc) : M A := fun db => (inr e, db).
Definition bind {A B} (c : M A) (k : A -> M B) : M B :=
  fun db => match c db with
            | (inl a, db') => k a db'
            | (inr e, db') => (inr e, db')
            end.

Notation "x <- c ;; k" := (bind c (fun x => k))
  (at level 61, c at next level, right associativity).
Notation "c ;;; k" := (bind c (fun _ => k))
  (at level 61, right associativity).

Definition is_key (r : Z) (i : Z) (x : row) : bool :=
  (root_id x =? r) && (id x =? i).

(** [SELECT MAX(id) FROM chat_history WHERE root_id = ?]: [None] is SQL NULL. *)
Definition max_id (r : Z) (db : store) : option Z :=
  fold_left (fun acc x =>
               if root_id x =? r then
                 match acc with
                 | None => Some (id x)
                 | Some m => Some (Z.max m (id x))
                 end
               else acc) db None.

(** [id = max_id + 1 if max_id is not None else 0] *)
Definition next_id (r : Z) (db : store) : Z :=
  match max_id r db with Some m => m + 1 | None => 0 end.

(** [SELECT * FROM chat_history WHERE root_id = ? AND id = ?] is non-empty. *)
Definition row_exists (r i : Z) (db : store) : bool := existsb (is_key r i) db.

(** [UPDATE chat_history SET role = ?, content = ? WHERE root_id = ? AND id = ?] *)
Definition update_rows (ro co : pystr) (r i : Z) (db : store) : store :=
  map (fun x => if is_key r i x then mk_row (root_id x) (id x) ro co else x) db.

(** [insert_chat_message(role, content, root_id, id=None)]; sqlite I/O
    errors are not modelled. *)
Definition insert_chat_message (ro co : pystr) (r : Z) (i : option Z) : M Z :=
  fun db =>
    match i with
    | None =>
        let i' := next_id r db in
        (inl i', db ++ [mk_row r i' ro co])
    | Some i' =>
        if row_exists r i' db then (inl i', update_rows ro co r i' db)
        else (inl i', db ++ [mk_row r i' ro co])
    end.

(** [fetch_chat_history(root_id)] *)
Definition fetch_chat_history (r : Z) (db : store) : list row :=
  filter (fun x => root_id x =? r) db.

(** [fetch_row(id, root_id)]: the first matching row, if any. *)
Definition fetch_row (i r : Z) (db : store) : option row :=
  match filter (is_key r i) db with
  | x :: _ => Some x
  | [] => None
  end.

(** A sequence of [append(root, role, content)] calls without [id]. *)
Fixpoint append_all (r : Z) (calls : list (pystr * pystr)) : M (list Z) :=
  match calls with
  | [] => ret []
  | (ro, co) :: rest =>
      i <- insert_chat_message ro co r None ;;
      is <- append_all r rest ;;
      ret (i :: is)
  end.

(** One call of [insert_chat_message] with all its arguments. *)
Record append_call := mk_call {
  call_role : pystr;
  call_content : pystr;
  call_root : Z;
  call_id : option Z
}.

Fixpoint exec_calls (cs : list append_call) (db : store) : store :=
  match cs with
  | [] => db
  | c :: rest =>
      exec_calls rest
        (snd (insert_chat_message (call_role c) (call_content c)
                (call_root c) (call_id c) db))
  end.

Definition get : M store := fun db => (inl db, db).

(** ** Python values

    The values [json.loads] produces and [json.dumps] consumes: [None],
    [bool], [int], [float] (kept as its text), [str], [list] and [dict]
    (key/value pairs in insertion order). *)
Inductive pyobj :=
| PNone
| PBool (b : bool)
| PInt (z : Z)
| PFloat (repr : pystr)
| PStr (s : pystr)
| PList (l : list pyobj)
| PDict (kvs : list (pystr * pyobj)).

(** [d.get(k, None)] on a dict: the last binding of [k] wins, as in a dict
    built from key/value pairs. *)
Definition py_get (k : pystr) (kvs : list (pystr * pyobj)) : pyobj :=
  match find (fun kv => str_eqb (fst kv) k) (rev kvs) with
  | Some (_, v) => v
  | None => PNone
  end.

(** [l[i]] on a Python list, negative indices counting from the end. *)
Definition py_index {A} (l : list A) (i : Z) : M A :=
  let n := Z.of_nat (length l) in
  let j := if i <? 0 then i + n else i in
  if (0 <=? j) && (j <? n) then
    match nth_error l (Z.to_nat j) with
    | Some x => ret x
    | None => raise IndexError
    end
  else raise IndexError.

(** ** Messages handed to the [process_message_before_send] hook

    Either a plain [str], or a dict with an optional ["content"] and an
    optional ["tool_calls"] list. *)
Inductive Msg :=
| MStr (s : pystr)
| MDict (msg_content : option pystr) (tool_calls : option (list pyobj)).

(** [summarize(text)] is [text[:100]]. *)
Definition summarize (text : pystr) : pystr := firstn 100 text.

(** ["Calling tools…"] *)
Definition calling_tools : pystr := u "Calling tools" ++ [8230].

(** ["Computing response…"] *)
Definition computing_response : pystr := u "Computing response" ++ [8230].

(** The prompt of the last, silent [user.send] of [generate_response_process]. *)
Definition final_prompt (task : pystr) : pystr :=
  u "Based on the results in above conversation, create a response for the user.
While computing the response, remember that this conversation was your inner mono-logue. The user does not need to know every detail of the conversation.
All they want to see is the appropriate result for their task (repeated below) in a manner that would be most useful.
The task was: " ++ task ++ u "

There is no need to use the word TERMINATE in this response.
        ".

Section Hook.

(** [json.dumps], a library function. *)
Variable json_dumps : pyobj -> pystr.

(** The branches of [post_snippet_and_record_history] that pick the summary
    and the stored content: [None] is the [ValueError] branch. *)
Definition summary_and_stored (message : Msg) : option (pystr * pystr) :=
  match message with
  | MStr s => Some (s, s)
  | MDict c tc =>
      match c with
      | Some ((_ :: _) as s) => Some (s, s)
      | _ =>
          match tc with
          | Some ((_ :: _) as calls) => Some (calling_tools, json_dumps (PList calls))
          | _ => None
          end
      end
  end.

(** The hook, closed over [msg_idx]; the sender is [sender.name]. *)
Definition post_snippet_and_record_history (msg_idx : Z) (sender : pystr)
    (message : Msg) (silent : bool) : M Msg :=
  if silent then ret message
  else
    match summary_and_stored message with
    | None => raise ValueError
    | Some (summary, stored) =>
        insert_chat_message sender stored (msg_idx + 1) None ;;;
        let snippet := summarize summary in
        insert_chat_message (u "info") snippet 0 (Some (msg_idx + 1)) ;;;
        ret message
    end.

Fixpoint run_hooks (msg_idx : Z) (sends : list (pystr * Msg * bool)) : M unit :=
  match sends with
  | [] => ret tt
  | (sender, m, silent) :: rest =>
      post_snippet_and_record_history msg_idx sender m silent ;;;
      run_hooks msg_idx rest
  end.

(** [generate_response_process(msg_idx)]. The agent runtime is external:
    [exchange] lists the hook invocations of the messages the agents send
    during [initiate_chat] (sender name, message, [silent]) and [response]
    is the content of the assistant's last reply. The replay of the history
    happens before the hooks are registered and stores nothing. *)
Definition generate_response_process (msg_idx : Z)
    (exchange : list (pystr * Msg * bool)) (response : pystr) : M unit :=
  db <- get ;;
  let chat_history := fetch_chat_history 0 db in
  r <- py_index chat_history msg_idx ;;
  let task := content r in
  run_hooks msg_idx exchange ;;;
  post_snippet_and_record_history msg_idx (u "user") (MStr (final_prompt task)) true ;;;
  post_snippet_and_record_history msg_idx (u "assistant") (MStr response) true ;;;
  insert_chat_message (u "assistant") response 0 (Some (msg_idx + 1)) ;;;
  ret tt.

(** [TinyRA.handle_input(user_input)] with [generate_response] run to its
    end; the display widgets are not modelled. *)
Definition handle_input (user_input : pystr)
    (exchange : list (pystr * Msg * bool)) (response : pystr) : M unit :=
  i <- insert_chat_message (u "user") user_input 0 None ;;
  db <- get ;;
  match fetch_row i 0 db with
  | None => ret tt
  | Some _ =>
      insert_chat_message (u "info") computing_response 0 (Some (i + 1)) ;;;
      generate_response_process i exchange response
  end.

End Hook.

(** ** The reply rule [terminate_on_consecutive_empty] *)
Record chat_msg := mk_msg {
  msg_role : pystr;
  msg_text : pystr
}.

(** The loop over [reversed(messages)], with [last_n] and
    [consecutive_are_empty] ([None], [Some true], [Some false]). *)
Fixpoint scan_empty (last_n : Z) (flag : option bool) (ms : list chat_msg)
    : option bool :=
  match ms with
  | [] => flag
  | m :: rest =>
      if last_n =? 0 then flag
      else if str_eqb (msg_role m) (u "user") then
        if Z.of_nat (length (msg_text m)) =? 0 then
          scan_empty (last_n - 1) (Some true) rest
        else Some false
      else scan_empty last_n flag rest
  end.

Definition terminate_on_consecutive_empty (messages : list chat_msg)
    : bool * option pystr :=
  let last_n := 2 in
  match scan_empty last_n None (rev messages) with
  | Some true => (true, Some (u "TERMINATE"))
  | _ => (false, None)
  end.

(** The [user]-role messages, most recent first. *)
Definition user_msgs (messages : list chat_msg) : list chat_msg :=
  filter (fun m => str_eqb (msg_role m) (u "user")) (rev messages).

(** ** [ReflectionTerminationManager] *)

Inductive TerminationReason :=
| MAX_TURNS_REACHED
| GOAL_REACHED
| CONSECUTIVE_EMPTY_INPUT
| UNSET.

(** [Terminated(reason, explanation)] and [NotTerminated(reason)]; the
    latter carries whatever object it is given ([NotTerminated()] carries
    [None]). *)
Inductive TerminationResult :=
| Terminated (reason : TerminationReason) (explanation : pystr)
| NotTerminated (explanation : pyobj).

(** The model-call messages of [autogen.experimental.types]. *)
Inductive llm_message :=
| SystemMessage (c : pystr)
| UserMessage (c : pystr) (source : pystr)
| AssistantMessage (c : pystr) (source : pystr).

(** [response.content] of [ModelClient.create]: text or function calls. *)
Inductive create_content :=
| CText (s : pystr)
| CFunctionCalls (calls : list pyobj).

(** A computation that may call [await self._model_client.create(...)]. *)
Inductive ModelCall (A : Type) :=
| Done (a : A)
| Create (conv : list llm_message) (k : create_content -> ModelCall A).
Arguments Done {A} a.
Arguments Create {A} conv k.

(** Answers each [create] call with [client]. *)
Fixpoint run {A} (client : list llm_message -> create_content) (c : ModelCall A) : A :=
  match c with
  | Done a => a
  | Create conv k => run client (k (client conv))
  end.

(** The instance fields; the model client itself is the [Create] event. *)
Record manager := mk_manager {
  goal : pystr;
  system_message : pystr;
  max_turns : option Z;
  turns : Z;
  min_turns : Z
}.

Definition init (g sm : pystr) (mx : option Z) (mn : Z) : manager + exc :=
  if mn <? 1 then inr ValueError
  else match mx with
       | Some m => if m <? mn then inr ValueError else inl (mk_manager g sm mx 0 mn)
       | None => inl (mk_manager g sm mx 0 mn)
       end.

Definition record_turn_taken (m : manager) : manager :=
  mk_manager (goal m) (system_message m) (max_turns m) (turns m + 1) (min_turns m).

Definition reset (m : manager) : manager :=
  mk_manager (goal m) (system_message m) (max_turns m) 0 (min_turns m).

(** The transitions of a manager after its construction. *)
Inductive turn_op := OpRecordTurn | OpReset.

Fixpoint apply_ops (ops : list turn_op) (m : manager) : manager :=
  match ops with
  | [] => m
  | OpRecordTurn :: rest => apply_ops rest (record_turn_taken m)
  | OpReset :: rest => apply_ops rest (reset m)
  end.

Definition max_turns_fired (m : manager) : bool :=
  match max_turns m with
  | Some mx => mx <=? turns m
  | None => false
  end.

Definition reminder_text (g : pystr) : pystr :=
  u "Please provide your response as JSON, with two properties: `is_done` (bool) and `reason` (str). Goal: " ++ g.

Section Reflection.

(** [json.loads]: [None] is a [JSONDecodeError]. *)
Variable json_loads : pystr -> option pyobj.
(** [convert_messages_to_llm_messages] of [autogen.experimental.utils]. *)
Variable convert_messages_to_llm_messages : list llm_message -> pystr -> list llm_message.
(** [system_message.format(goal=goal)] *)
Variable format_goal : pystr -> pystr -> pystr.

(** The [try] block after the model call. The [assert] raises
    [AssertionError] on function calls and [.get] raises [AttributeError]
    on a decoded value that is not a dict: neither is caught by
    [except json.JSONDecodeError]. *)
Definition parse_response (resp : create_content) : TerminationResult + exc :=
  match resp with
  | CFunctionCalls _ => inr AssertionError
  | CText s =>
      match json_loads s with
      | None => inl (NotTerminated (PStr (u "Failed to parse response")))
      | Some (PDict kvs) =>
          let is_done := py_get (u "is_done") kvs in
          let reason := py_get (u "reason") kvs in
          match is_done, reason with
          | PBool b, PStr r =>
              if b then inl (Terminated GOAL_REACHED r)
              else inl (NotTerminated (PStr r))
          | _, _ => inl (NotTerminated reason)
          end
      | Some _ => inr AttributeError
      end
  end.

Definition check_termination (m : manager) (chat_history : list llm_message)
    : ModelCall (TerminationResult + exc) :=
  if max_turns_fired m then
    Done (inl (Terminated MAX_TURNS_REACHED (u "Max turns reached.")))
  else if turns m <=? min_turns m then Done (inl (NotTerminated PNone))
  else
    match chat_history with
    | [] => Done (inl (NotTerminated PNone))
    | _ :: _ =>
        let reminder_message := AssistantMessage (reminder_text (goal m)) (u "system") in
        let sys := SystemMessage (format_goal (system_message m) (goal m)) in
        let entire_conversation :=
          [sys] ++ convert_messages_to_llm_messages chat_history (u "reflection")
                ++ [reminder_message] in
        Create entire_conversation (fun response => Done (parse_response response))
    end.

End Reflection.

(** ** A JSON decoder for concrete runs

    A subset of [json.loads]: [null], [true], [false], integers, strings
    without escapes, arrays and objects. It returns [None] on every text it
    does not accept; on the texts it accepts it returns what [json.loads]
    returns. It only instantiates [json_loads] at concrete inputs. *)
Definition is_ws (c : Z) : bool := (c =? 32) || (c =? 9) || (c =? 10) || (c =? 13).

Fixpoint skip_ws (s : pystr) : pystr :=
  match s with
  | c :: r => if is_ws c then skip_ws r else s
  | [] => []
  end.

(** The body of a string literal after its opening quote. *)
Fixpoint lex_string (s : pystr) : option (pystr * pystr) :=
  match s with
  | [] => None
  | c :: r =>
      if c =? 34 then Some ([], r)
      else if (c =? 92) || (c <? 32) then None
      else match lex_string r with
           | Some (t, r') => Some (c :: t, r')
           | None => None
           end
  end.

Definition is_digit (c : Z) : bool := (48 <=? c) && (c <=? 57).

Fixpoint lex_digits (s : pystr) (acc : Z) (n : nat) : Z * nat * pystr :=
  match s with
  | c :: r => if is_digit c then lex_digits r (10 * acc + (c - 48)) (S n) else (acc, n, s)
  | [] => (acc, n, s)
  end.

Definition lex_nat (s : pystr) : option (Z * pystr) :=
  match s with
  | 48 :: r => match r with
               | c :: _ => if is_digit c then None else Some (0, r)
               | [] => Some (0, r)
               end
  | _ => match lex_digits s 0 O with
         | (_, O, _) => None
         | (v, _, r) => Some (v, r)
         end
  end.

Fixpoint parse_value (fuel : nat) (s : pystr) {struct fuel} : option (pyobj * pystr) :=
  match fuel with
  | O => None
  | S f =>
      match skip_ws s with
      | 110 :: 117 :: 108 :: 108 :: r => Some (PNone, r)
      | 116 :: 114 :: 117 :: 101 :: r => Some (PBool true, r)
      | 102 :: 97 :: 108 :: 115 :: 101 :: r => Some (PBool false, r)
      | 34 :: r =>
          match lex_string r with
          | Some (t, r') => Some (PStr t, r')
          | None => None
          end
      | 45 :: r =>
          match lex_nat r with
          | Some (v, r') => Some (PInt (- v), r')
          | None => None
          end
      | 91 :: r =>
          match skip_ws r with
          | 93 :: r' => Some (PList [], r')
          | _ => parse_items f r []
          end
      | 123 :: r =>
          match skip_ws r with
          | 125 :: r' => Some (PDict [], r')
          | _ => parse_members f r []
          end
      | t =>
          match lex_nat t with
          | Some (v, r') => Some (PInt v, r')
          | None => None
          end
      end
  end
with parse_items (fuel : nat) (s : pystr) (acc : list pyobj) {struct fuel}
    : option (pyobj * pystr) :=
  match fuel with
  | O => None
  | S f =>
      match parse_value f s with
      | Some (v, r) =>
          match skip_ws r with
          | 44 :: r' => parse_items f r' (acc ++ [v])
          | 93 :: r' => Some (PList (acc ++ [v]), r')
          | _ => None
          end
      | None => None
      end
  end
with parse_members (fuel : nat) (s : pystr) (acc : list (pystr * pyobj)) {struct fuel}
    : option (pyobj * pystr) :=
  match fuel with
  | O => None
  | S f =>
      match skip_ws s with
      | 34 :: r =>
          match lex_string r with
          | Some (k, r1) =>
              match skip_ws r1 with
              | 58 :: r2 =>
                  match parse_value f r2 with
                  | Some (v, r3) =>
                      match skip_ws r3 with
                      | 44 :: r4 => parse_members f r4 (acc ++ [(k, v)])
                      | 125 :: r4 => Some (PDict (acc ++ [(k, v)]), r4)
                      | _ => None
                      end
                  | None => None
                  end
              | _ => None
              end
          | None => None
          end
      | _ => None
      end
  end.

Definition json_loads_subset (s : pystr) : option pyobj :=
  match parse_value (2 * length s + 2) s with
  | Some (v, r) => match skip_ws r with [] => Some v | _ => None end
  | None => None
  end.

(** A JSON text written as an ASCII literal with [']  standing for a double quote. *)
Definition jtext (s : string) : pystr :=
  map (fun c => if c =? 39 then 34 else c) (u s).

(** ** A JSON encoder for concrete runs

    A subset of [json.dumps] with its default separators: it agrees with
    [json.dumps] on values whose strings are printable ASCII. *)
Fixpoint digits_rev (fuel : nat) (n : Z) : pystr :=
  match fuel with
  | O => []
  | S f => if n <? 10 then [48 + n] else (48 + n mod 10) :: digits_rev f (n / 10)
  end.

Definition int_repr (z : Z) : pystr :=
  let n := Z.abs z in
  (if z <? 0 then [45] else []) ++ rev (digits_rev (S (Z.to_nat (Z.log2 (n + 1)))) n).

Definition escape_char (c : Z) : pystr :=
  if (c =? 34) || (c =? 92) then [92; c] else [c].

Definition quote (s : pystr) : pystr := [34] ++ flat_map escape_char s ++ [34].

Fixpoint json_dumps_subset (v : pyobj) : pystr :=
  match v with
  | PNone => u "null"
  | PBool true => u "true"
  | PBool false => u "false"
  | PInt z => int_repr z
  | PFloat r => r
  | PStr s => quote s
  | PList l =>
      [91] ++ (fix items (l : list pyobj) : pystr :=
                 match l with
                 | [] => []
                 | [x] => json_dumps_subset x
                 | x :: rest => json_dumps_subset x ++ u ", " ++ items rest
                 end) l ++ [93]
  | PDict kvs =>
      [123] ++ (fix members (kvs : list (pystr * pyobj)) : pystr :=
                  match kvs with
                  | [] => []
                  | [(k, x)] => quote k ++ u ": " ++ json_dumps_subset x
                  | (k, x) :: rest => quote k ++ u ": " ++ json_dumps_subset x ++ u ", " ++ members rest
                  end) kvs ++ [125]
  end.

(** An exchange of two non-silent messages. *)
Definition sample_exchange : list (pystr * Msg * bool) :=
  [(u "assistant", MStr (u "a"), false); (u "user", MStr [], false)].

(** ** [Profiler.profile_message] and [ChatScreen.compose] *)

(** [str.split(",")]: the pieces between commas, kept verbatim. *)
Fixpoint split_comma (s : pystr) : list pystr :=
  match s with
  | [] => [[]]
  | c :: r =>
      let rest := split_comma r in
      if c =? 44 then [] :: rest
      else match rest with
           | x :: xs => (c :: x) :: xs
           | [] => [[c]]
           end
  end.

(** [",".join(pieces)] *)
Fixpoint join_comma (pieces : list pystr) : pystr :=
  match pieces with
  | [] => []
  | [x] => x
  | x :: xs => x ++ [44] ++ join_comma xs
  end.

(** [State(name, description, tags)]; [tags] may be [None]. *)
Record State := mk_state {
  state_name : pystr;
  state_description : pystr;
  state_tags : option (list pystr)
}.

(** The states of the profile [profile_message] builds from the model's
    text [response]: one [State(name=piece, description="", tags=[])] per
    piece of [response.split(",")]. The model call is external. *)
Definition profile_message_states (response : pystr) : list State :=
  map (fun n => mk_state n [] (Some [])) (split_comma response).

(** The CSS classes [ChatScreen.compose] gives the messages of a thread:
    [msg_class] is only assigned for [assistant] and [user] messages and
    otherwise keeps its previous value; reading it before any assignment is
    an [UnboundLocalError] ([None]). *)
Fixpoint screen_classes (msg_class : option pystr) (history : list row) : option (list pystr) :=
  match history with
  | [] => Some []
  | m :: rest =>
      let c1 := if str_eqb (role m) (u "assistant") then Some (u "assistant-message") else msg_class in
      let c2 := if str_eqb (role m) (u "user") then Some (u "user-message") else c1 in
      match c2 with
      | None => None
      | Some c =>
          match screen_classes c2 rest with
          | Some cs => Some ((c ++ u " message") :: cs)
          | None => None
          end
      end
  end.

(** ** Collaborators of the reflection manager for concrete runs *)

(** [str.format] with a single [goal] field: every ["{goal}"] is replaced. *)
Fixpoint format_goal_field (sm g : pystr) : pystr :=
  match sm with
  | 123 :: 103 :: 111 :: 97 :: 108 :: 125 :: rest => g ++ format_goal_field rest g
  | c :: rest => c :: format_goal_field rest g
  | [] => []
  end.

(** A message conversion that keeps the messages as they are. *)
Definition convert_keep (ms : list llm_message) (_ : pystr) : list llm_message := ms.

(** A manager past its gates: two turns taken, [min_turns = 1]. *)
Definition judge_after_two_turns : manager :=
  mk_manager (u "print hello") (u "Decide. Goal: {goal}") None 2 1.

Definition judged (history : list llm_message) (answer : pystr) : TerminationResult + exc :=
  run (fun _ => CText answer)
    (check_termination json_loads_subset convert_keep format_goal_field
       judge_after_two_turns history).

(** ** Auxiliary notions of the proofs *)

Definition key (x : row) : Z * Z := (root_id x, id x).

(** Fresh rows at turns [k], [k+1], ... *)
Fixpoint fresh_rows (r : Z) (k : nat) (calls : list (pystr * pystr)) : store :=
  match calls with
  | [] => []
  | (ro, co) :: rest => mk_row r (Z.of_nat k) ro co :: fresh_rows r (S k) rest
  end.

(** Keys of the table are pairwise distinct. *)
Definition keys_nodup (db : store) : Prop := NoDup (map key db).

(** What the generation keeps of the top-level thread: the rows at turns
    other than [k] as they are, and exactly one row at turn [k]. *)
Definition keeps_top (k : Z) (db0 db : store) : Prop :=
  (forall b, b <> k -> filter (is_key 0 b) db = filter (is_key 0 b) db0)
  /\ exists y, filter (is_key 0 k) db = [y].

Definition is_empty (m : chat_msg) : bool := Z.of_nat (length (msg_text m)) =? 0.

(** ** Runs on concrete inputs *)

Example json_loads_subset_obj :
  json_loads_subset (jtext "{'is_done': true, 'reason': 'done'}")
  = Some (PDict [(u "is_done", PBool true); (u "reason", PStr (u "done"))]).
Proof. vm_compute. reflexivity. Qed.

Example json_loads_subset_bad : json_loads_subset (u "not json") = None.
Proof. vm_compute. reflexivity. Qed.

Example json_loads_subset_nested :
  json_loads_subset (jtext " [1, -20, {'a': [null, false]}] ")
  = Some (PList [PInt 1; PInt (-20); PDict [(u "a", PList [PNone; PBool false])]]).
Proof. vm_compute. reflexivity. Qed.

Example consecutive_empty_ex1 :
  terminate_on_consecutive_empty
    [mk_msg (u "user") []; mk_msg (u "assistant") (u "ok"); mk_msg (u "user") []]
  = (true, Some (u "TERMINATE")).
Proof. reflexivity. Qed.

Example consecutive_empty_ex2 :
  terminate_on_consecutive_empty [mk_msg (u "user") (u "hi")] = (false, None).
Proof. reflexivity. Qed.

Example insert_ex :
  snd ((insert_chat_message (u "a") (u "x") 3 None ;;; insert_chat_message (u "b") (u "y") 3 None) [])
  = [mk_row 3 0 (u "a") (u "x")] ++ [mk_row 3 1 (u "b") (u "y")].
Proof. reflexivity. Qed.

Example json_dumps_subset_ex :
  json_dumps_subset (PList [PDict [(u "name", PStr (u "f")); (u "n", PInt (-120))]])
  = jtext "[{'name': 'f', 'n': -120}]".
Proof. vm_compute. reflexivity. Qed.

(** ** The thread store *)

Module StoreFacts.

Lemma max_id_app r db x :
  max_id r (db ++ [x]) =
  if root_id x =? r then
    match max_id r db with
    | None => Some (id x)
    | Some m => Some (Z.max m (id x))
    end
  else max_id r db.
Proof. unfold max_id. now rewrite fold_left_app. Qed.

Lemma fetch_app r db db' :
  fetch_chat_history r (db ++ db') = fetch_chat_history r db ++ fetch_chat_history r db'.
Proof. apply filter_app. Qed.

(** [MAX(id)] is NULL on an empty thread, else the largest turn of the thread. *)
Lemma max_id_spec r db :
  match max_id r db with
  | None => fetch_chat_history r db = []
  | Some m => In m (map id (fetch_chat_history r db))
              /\ Forall (fun x => id x <= m) (fetch_chat_history r db)
  end.
Proof.
  induction db as [|x db IH] using rev_ind; [reflexivity|].
  rewrite max_id_app, fetch_app.
  unfold fetch_chat_history at 2; simpl.
  destruct (root_id x =? r) eqn:Hx; destruct (max_id r db) as [m|] eqn:Hm.
  - destruct IH as [Hin Hall]. rewrite map_app, Forall_app. simpl.
    split.
    + destruct (Z.max_spec m (id x)) as [[_ ->]|[_ ->]];
        rewrite in_app_iff; simpl; tauto.
    + split.
      * eapply Forall_impl; [|exact Hall]. intros y Hy; simpl in Hy; lia.
      * constructor; [lia | constructor].
  - rewrite IH. simpl. split; [now left | constructor; [lia | constructor]].
  - now rewrite app_nil_r.
  - now rewrite app_nil_r.
Qed.

Lemma next_id_app_fresh r db ro co :
  next_id r (db ++ [mk_row r (next_id r db) ro co]) = next_id r db + 1.
Proof.
  unfold next_id at 1. rewrite max_id_app. simpl. rewrite Z.eqb_refl.
  unfold next_id. destruct (max_id r db); simpl; lia.
Qed.

Lemma next_id_empty r db : fetch_chat_history r db = [] -> next_id r db = 0.
Proof.
  intro H. pose proof (max_id_spec r db) as S. unfold next_id.
  destruct (max_id r db); [|reflexivity].
  rewrite H in S. destruct S as [[] _].
Qed.

Lemma append_all_from r calls : forall (k : nat) db,
  next_id r db = Z.of_nat k ->
  append_all r calls db =
  (inl (map Z.of_nat (seq k (length calls))), db ++ fresh_rows r k calls).
Proof.
  induction calls as [|[ro co] rest IH]; intros k db Hk.
  - simpl. now rewrite app_nil_r.
  - simpl. unfold bind. simpl. rewrite (IH (S k)).
    + simpl. rewrite Hk, <- app_assoc. reflexivity.
    + rewrite next_id_app_fresh, Hk. lia.
Qed.

Lemma keys_update ro co r t db : map key (update_rows ro co r t db) = map key db.
Proof.
  induction db as [|x db IH]; [reflexivity|].
  simpl. rewrite IH. destruct (is_key r t x); reflexivity.
Qed.

Lemma nodup_snoc (l : list (Z * Z)) a : NoDup l -> ~ In a l -> NoDup (l ++ [a]).
Proof.
  intros H Ha. apply NoDup_app; [exact H | constructor; [intros [] | constructor] |].
  intros b Hb [<- | []]. contradiction.
Qed.

Lemma not_in_keys r t db : row_exists r t db = false -> ~ In (r, t) (map key db).
Proof.
  intros H Hin. apply in_map_iff in Hin as [x [Hx Hin]].
  unfold row_exists in H. rewrite <- Bool.not_true_iff_false, existsb_exists in H.
  apply H. exists x. split; [exact Hin|].
  unfold key in Hx. injection Hx as E1 E2. unfold is_key. rewrite E1, E2, !Z.eqb_refl. reflexivity.
Qed.

Lemma next_id_fresh r db : ~ In (r, next_id r db) (map key db).
Proof.
  intro Hin. apply in_map_iff in Hin as [x [Hx Hin]].
  unfold key in Hx. injection Hx as E1 E2.
  assert (Hf : In x (fetch_chat_history r db))
    by (apply filter_In; split; [exact Hin | now apply Z.eqb_eq]).
  pose proof (max_id_spec r db) as S. unfold next_id in E2.
  destruct (max_id r db) as [m|].
  - destruct S as [_ Hall]. rewrite Forall_forall in Hall.
    specialize (Hall x Hf). lia.
  - rewrite S in Hf. destruct Hf.
Qed.

Lemma insert_keys_nodup ro co r i db :
  keys_nodup db -> keys_nodup (snd (insert_chat_message ro co r i db)).
Proof.
  unfold keys_nodup, insert_chat_message. intro H.
  destruct i as [t|]; simpl.
  - destruct (row_exists r t db) eqn:E; simpl.
    + now rewrite keys_update.
    + rewrite map_app. apply nodup_snoc; [exact H|]. now apply not_in_keys.
  - rewrite map_app. apply nodup_snoc; [exact H|]. apply next_id_fresh.
Qed.

Lemma exec_calls_keys_nodup cs : forall db, keys_nodup db -> keys_nodup (exec_calls cs db).
Proof.
  induction cs as [|c cs IH]; intros db H; [exact H|].
  simpl. apply IH, insert_keys_nodup, H.
Qed.

Lemma keys_nodup_thread r db : keys_nodup db -> NoDup (map id (fetch_chat_history r db)).
Proof.
  unfold keys_nodup. induction db as [|x db IH]; intro H; simpl; [constructor|].
  inversion H as [|? ? Hnot Hrest]; subst.
  destruct (root_id x =? r) eqn:Ex; simpl; [|now apply IH].
  constructor; [|now apply IH].
  intro Hin. apply Hnot. apply in_map_iff in Hin as [y [Hy Hin]].
  apply filter_In in Hin as [Hin Hr]. apply in_map_iff. exists y. split; [|exact Hin].
  unfold key. apply Z.eqb_eq in Ex, Hr. rewrite Ex, Hr, Hy. reflexivity.
Qed.

Lemma update_rows_in_place ro co r t db :
  Forall2 (fun x x' => if is_key r t x then x' = mk_row r t ro co else x' = x)
    db (update_rows ro co r t db).
Proof.
  induction db as [|x db IH]; simpl; constructor; [|exact IH].
  destruct (is_key r t x) eqn:E; [|reflexivity].
  unfold is_key in E. apply andb_prop in E as [E1 E2].
  apply Z.eqb_eq in E1, E2. now rewrite E1, E2.
Qed.

Lemma fetch_row_update ro co r t db :
  row_exists r t db = true -> fetch_row t r (update_rows ro co r t db) = Some (mk_row r t ro co).
Proof.
  unfold fetch_row, row_exists. induction db as [|x db IH]; simpl; [discriminate|].
  destruct (is_key r t x) eqn:E; simpl.
  - intros _. unfold is_key in E |- *. apply andb_prop in E as [E1 E2].
    apply Z.eqb_eq in E1, E2. subst r t. simpl. rewrite !Z.eqb_refl. reflexivity.
  - rewrite E. exact IH.
Qed.

End StoreFacts.

(** ** Claims on the thread store *)

(** C5: starting from a table with no row for [root], a sequence of
    [insert_chat_message(role, content, root)] calls without [id] returns
    the turns 0, 1, 2, ... and inserts each row at the turn it returns; and
    on every table the turn allocated without [id] is 0 on an empty thread,
    else one more than the largest turn of the thread. *)
Theorem append_turns_gapless (r : Z) (db : store) (calls : list (pystr * pystr))
    (Hempty : fetch_chat_history r db = []) :
  append_all r calls db =
    (inl (map Z.of_nat (seq 0 (length calls))), db ++ fresh_rows r 0 calls)
  /\ (forall ro co db', exists t,
        insert_chat_message ro co r None db' = (inl t, db' ++ [mk_row r t ro co])
        /\ ((fetch_chat_history r db' = [] /\ t = 0)
            \/ (In (t - 1) (map id (fetch_chat_history r db'))
                /\ Forall (fun x => id x < t) (fetch_chat_history r db')))).
Proof.
  split.
  - apply StoreFacts.append_all_from. now apply StoreFacts.next_id_empty.
  - intros ro co db'. exists (next_id r db'). split; [reflexivity|].
    pose proof (StoreFacts.max_id_spec r db') as S. unfold next_id.
    destruct (max_id r db') as [m|].
    + right. destruct S as [Hin Hall]. split.
      * now replace (m + 1 - 1) with m by lia.
      * eapply Forall_impl; [|exact Hall]. intros x Hx; simpl in Hx; lia.
    + left. now split.
Qed.

Lemma append_turns_gapless_witness :
  fetch_chat_history 1 [mk_row 0 0 (u "user") (u "hi")] = []
  /\ append_all 1 [(u "user", u "a"); (u "assistant", u "b"); (u "user", [])]
       [mk_row 0 0 (u "user") (u "hi")]
     = (inl [0; 1; 2],
        [mk_row 0 0 (u "user") (u "hi")]
          ++ fresh_rows 1 0 [(u "user", u "a"); (u "assistant", u "b"); (u "user", [])]).
Proof.
  split; [reflexivity|].
  exact (proj1 (append_turns_gapless 1 [mk_row 0 0 (u "user") (u "hi")]
                  [(u "user", u "a"); (u "assistant", u "b"); (u "user", [])] eq_refl)).
Defined.

(** C6: [insert_chat_message(role, content, root, id=t)] on a table that
    has a row at [(root, t)] returns [t] and overwrites that row's role and
    content in place, leaving every other row as it was; and after any
    sequence of [insert_chat_message] calls from the empty table, no thread
    holds two rows with the same turn. *)
Theorem upsert_in_place_no_duplicate_turns (db : store) (r t : Z) (ro co : pystr)
    (Hexists : row_exists r t db = true) :
  (exists db',
      insert_chat_message ro co r (Some t) db = (inl t, db')
      /\ Forall2 (fun x x' => if is_key r t x then x' = mk_row r t ro co else x' = x) db db'
      /\ fetch_row t r db' = Some (mk_row r t ro co))
  /\ (forall cs root, NoDup (map id (fetch_chat_history root (exec_calls cs [])))).
Proof.
  split.
  - exists (update_rows ro co r t db). split; [|split].
    + unfold insert_chat_message. now rewrite Hexists.
    + apply StoreFacts.update_rows_in_place.
    + now apply StoreFacts.fetch_row_update.
  - intros cs root. apply StoreFacts.keys_nodup_thread, StoreFacts.exec_calls_keys_nodup.
    constructor.
Qed.

Lemma upsert_in_place_no_duplicate_turns_witness :
  row_exists 0 1 [mk_row 0 0 (u "user") (u "q"); mk_row 0 1 (u "info") computing_response] = true
  /\ fetch_row 1 0
       (snd (insert_chat_message (u "assistant") (u "answer") 0 (Some 1)
               [mk_row 0 0 (u "user") (u "q"); mk_row 0 1 (u "info") computing_response]))
     = Some (mk_row 0 1 (u "assistant") (u "answer")).
Proof.
  split; [reflexivity|].
  destruct (proj1 (upsert_in_place_no_duplicate_turns
                     [mk_row 0 0 (u "user") (u "q"); mk_row 0 1 (u "info") computing_response]
                     0 1 (u "assistant") (u "answer") eq_refl)) as [db' [E [_ F]]].
  rewrite E. exact F.
Defined.

(** ** The hook *)

Module HookFacts.

Lemma fetch_update_other a ro co r t db :
  a <> r -> fetch_chat_history a (update_rows ro co r t db) = fetch_chat_history a db.
Proof.
  intro Ha. unfold fetch_chat_history. induction db as [|x db IH]; [reflexivity|].
  simpl. destruct (is_key r t x) eqn:E; simpl.
  - unfold is_key in E. apply andb_prop in E as [E1 _]. apply Z.eqb_eq in E1.
    rewrite E1. destruct (Z.eqb_spec r a); [congruence|]. exact IH.
  - destruct (root_id x =? a); [f_equal|]; exact IH.
Qed.

Lemma fetch_insert_other a ro co r i db :
  a <> r -> fetch_chat_history a (snd (insert_chat_message ro co r i db)) = fetch_chat_history a db.
Proof.
  intro Ha. unfold insert_chat_message.
  destruct i as [t|]; [destruct (row_exists r t db)|]; simpl;
    try (now apply fetch_update_other);
    rewrite StoreFacts.fetch_app; unfold fetch_chat_history at 2; simpl;
    destruct (Z.eqb_spec r a); try congruence; now rewrite app_nil_r.
Qed.

Lemma fetch_insert_fresh ro co r db :
  fetch_chat_history r (snd (insert_chat_message ro co r None db))
  = fetch_chat_history r db ++ [mk_row r (next_id r db) ro co].
Proof.
  simpl. rewrite StoreFacts.fetch_app. unfold fetch_chat_history at 2. simpl.
  now rewrite Z.eqb_refl.
Qed.

Lemma fetch_row_insert_some ro co r t db :
  fetch_row t r (snd (insert_chat_message ro co r (Some t) db)) = Some (mk_row r t ro co).
Proof.
  unfold insert_chat_message. destruct (row_exists r t db) eqn:E; simpl.
  - now apply StoreFacts.fetch_row_update.
  - unfold fetch_row. rewrite filter_app.
    replace (filter (is_key r t) db) with (@nil row).
    + simpl. unfold is_key. simpl. now rewrite !Z.eqb_refl.
    + unfold row_exists in E. induction db as [|x db IH]; [reflexivity|].
      simpl in E |- *. apply orb_false_iff in E as [E1 E2].
      rewrite E1. exact (IH E2).
Qed.

(** [insert_chat_message] never raises in the model. *)
Lemma bind_insert {A} ro co r i (k : Z -> M A) db :
  bind (insert_chat_message ro co r i) k db
  = k (match i with Some t => t | None => next_id r db end)
      (snd (insert_chat_message ro co r i db)).
Proof.
  unfold bind, insert_chat_message. destruct i as [t|]; [destruct (row_exists r t db)|]; reflexivity.
Qed.

End HookFacts.

(** C9: a [silent] hook call stores nothing and returns the message as it
    was given. *)
Theorem hook_silent_no_effect (json_dumps : pyobj -> pystr) (msg_idx : Z)
    (sender : pystr) (message : Msg) (db : store) :
  post_snippet_and_record_history json_dumps msg_idx sender message true db = (inl message, db).
Proof. reflexivity. Qed.

(** C4 (amended): a non-silent hook call on a message with text or tool
    calls appends exactly one row to the exchange's thread [msg_idx + 1]
    (role = sender, content = the text, or [json.dumps] of the tool calls
    when the message has no non-empty content) and, on every such call,
    upserts an ["info"] row at turn [msg_idx + 1] of the top-level thread
    [0], whose content is the first 100 characters of the text (or of
    ["Calling tools…"]); no other thread changes and the message is returned. *)
Theorem hook_records_message_and_snippet (json_dumps : pyobj -> pystr) (msg_idx : Z)
    (sender : pystr) (message : Msg) (db : store) (summary stored : pystr)
    (Hidx : 0 <= msg_idx)
    (Hpayload : summary_and_stored json_dumps message = Some (summary, stored)) :
  (exists db',
      post_snippet_and_record_history json_dumps msg_idx sender message false db = (inl message, db')
      /\ fetch_chat_history (msg_idx + 1) db'
         = fetch_chat_history (msg_idx + 1) db
             ++ [mk_row (msg_idx + 1) (next_id (msg_idx + 1) db) sender stored]
      /\ fetch_row (msg_idx + 1) 0 db' = Some (mk_row 0 (msg_idx + 1) (u "info") (summarize summary))
      /\ (length (summarize summary) <= 100)%nat
      /\ (forall r, r <> 0 -> r <> msg_idx + 1 -> fetch_chat_history r db' = fetch_chat_history r db))
  /\ (forall s, message = MStr s -> stored = s /\ summary = s)
  /\ (forall c tc, message = MDict c tc ->
        (exists s, c = Some s /\ s <> [] /\ stored = s /\ summary = s)
        \/ ((c = None \/ c = Some []) /\
            exists calls, tc = Some calls /\ calls <> [] /\
                          stored = json_dumps (PList calls) /\ summary = calling_tools)).
Proof.
  split; [|split].
  - unfold post_snippet_and_record_history. rewrite Hpayload.
    set (k := msg_idx + 1).
    set (db1 := snd (insert_chat_message sender stored k None db)).
    set (db2 := snd (insert_chat_message (u "info") (summarize summary) 0 (Some k) db1)).
    exists db2. split; [|split; [|split; [|split]]].
    + rewrite !HookFacts.bind_insert. reflexivity.
    + unfold db2. rewrite HookFacts.fetch_insert_other by (unfold k; lia).
      apply HookFacts.fetch_insert_fresh.
    + apply HookFacts.fetch_row_insert_some.
    + unfold summarize. rewrite length_firstn. lia.
    + intros r Hr0 Hrk. unfold db2, db1.
      rewrite HookFacts.fetch_insert_other by exact Hr0.
      now apply HookFacts.fetch_insert_other.
  - intros s ->. simpl in Hpayload. injection Hpayload as <- <-. now split.
  - intros c tc ->. simpl in Hpayload.
    destruct c as [[|ch cs]|].
    + right. split; [now right|].
      destruct tc as [[|call calls]|]; try discriminate.
      injection Hpayload as <- <-.
      exists (call :: calls). split; [reflexivity | split; [discriminate | split; reflexivity]].
    + left. injection Hpayload as <- <-.
      exists (ch :: cs). split; [reflexivity | split; [discriminate | split; reflexivity]].
    + right. split; [now left|].
      destruct tc as [[|call calls]|]; try discriminate.
      injection Hpayload as <- <-.
      exists (call :: calls). split; [reflexivity | split; [discriminate | split; reflexivity]].
Qed.

Lemma hook_records_message_and_snippet_witness :
  0 <= 4
  /\ summary_and_stored json_dumps_subset
       (MDict None (Some [PDict [(u "name", PStr (u "search"))]]))
     = Some (calling_tools, json_dumps_subset (PList [PDict [(u "name", PStr (u "search"))]]))
  /\ fetch_row 5 0
       (snd (post_snippet_and_record_history json_dumps_subset 4 (u "assistant")
               (MDict None (Some [PDict [(u "name", PStr (u "search"))]])) false []))
     = Some (mk_row 0 5 (u "info") (summarize calling_tools)).
Proof.
  split; [lia|]. split; [reflexivity|].
  destruct (proj1 (hook_records_message_and_snippet json_dumps_subset 4 (u "assistant")
                     (MDict None (Some [PDict [(u "name", PStr (u "search"))]])) []
                     calling_tools (json_dumps_subset (PList [PDict [(u "name", PStr (u "search"))]]))
                     ltac:(lia) eq_refl)) as [db' [E [_ [F _]]]].
  rewrite E. exact F.
Defined.

(** C4 counterexample: the exchange of the request at turn 0 lives in
    thread 1, not in the top-level thread, and still a non-silent call
    stores an ["info"] summary row in thread 0. *)
Lemma hook_info_row_outside_top_level_thread :
  0 + 1 <> 0
  /\ snd (post_snippet_and_record_history json_dumps_subset 0 (u "assistant")
            (MStr (u "hi")) false [])
     = [mk_row 1 0 (u "assistant") (u "hi"); mk_row 0 1 (u "info") (u "hi")].
Proof. split; [lia | reflexivity]. Qed.

(** ** The final answer of a generation *)

Module FinalFacts.

Lemma row_exists_false_filter r t db :
  row_exists r t db = false -> filter (is_key r t) db = [].
Proof.
  unfold row_exists. induction db as [|x db IH]; [reflexivity|].
  simpl. intro E. apply orb_false_iff in E as [E1 E2]. rewrite E1. exact (IH E2).
Qed.

Lemma row_exists_true_filter r t db :
  row_exists r t db = true -> filter (is_key r t) db <> [].
Proof.
  unfold row_exists. induction db as [|x db IH]; [discriminate|].
  simpl. destruct (is_key r t x); [discriminate|]. exact IH.
Qed.

Lemma is_key_same_key a b x ro co :
  is_key a b (mk_row (root_id x) (id x) ro co) = is_key a b x.
Proof. reflexivity. Qed.

Lemma filter_key_update_other a b ro co r t db :
  a <> r \/ b <> t ->
  filter (is_key a b) (update_rows ro co r t db) = filter (is_key a b) db.
Proof.
  intro Hne. induction db as [|x db IH]; [reflexivity|].
  simpl. destruct (is_key r t x) eqn:E1.
  - rewrite is_key_same_key. destruct (is_key a b x) eqn:E2; [|exact IH].
    exfalso. unfold is_key in E1, E2.
    apply andb_prop in E1 as [E1 E1']. apply andb_prop in E2 as [E2 E2'].
    apply Z.eqb_eq in E1, E1', E2, E2'. lia.
  - destruct (is_key a b x); [f_equal|]; exact IH.
Qed.

Lemma filter_key_update_same ro co r t db :
  filter (is_key r t) (update_rows ro co r t db)
  = map (fun _ => mk_row r t ro co) (filter (is_key r t) db).
Proof.
  induction db as [|x db IH]; [reflexivity|].
  simpl. destruct (is_key r t x) eqn:E1.
  - rewrite is_key_same_key, E1. simpl. rewrite IH. f_equal.
    unfold is_key in E1. apply andb_prop in E1 as [E1 E1'].
    apply Z.eqb_eq in E1, E1'. now rewrite E1, E1'.
  - rewrite E1. exact IH.
Qed.

Lemma filter_key_insert_some_other a b ro co r t db :
  a <> r \/ b <> t ->
  filter (is_key a b) (snd (insert_chat_message ro co r (Some t) db)) = filter (is_key a b) db.
Proof.
  intro Hne. unfold insert_chat_message. destruct (row_exists r t db); simpl.
  - now apply filter_key_update_other.
  - rewrite filter_app. simpl. unfold is_key at 2. simpl.
    destruct (Z.eqb_spec r a), (Z.eqb_spec t b); simpl; try (now rewrite app_nil_r). lia.
Qed.

Lemma filter_key_insert_none_other a b ro co r db :
  a <> r ->
  filter (is_key a b) (snd (insert_chat_message ro co r None db)) = filter (is_key a b) db.
Proof.
  intro Hne. simpl. rewrite filter_app. simpl. unfold is_key at 2. simpl.
  destruct (Z.eqb_spec r a); [lia|]. simpl. now rewrite app_nil_r.
Qed.

(** An upsert leaves exactly one row at its key when there was at most one. *)
Lemma filter_key_insert_same ro co r t db :
  (filter (is_key r t) db = [] \/ exists x, filter (is_key r t) db = [x]) ->
  filter (is_key r t) (snd (insert_chat_message ro co r (Some t) db)) = [mk_row r t ro co].
Proof.
  intro Hle. unfold insert_chat_message. destruct (row_exists r t db) eqn:E; simpl.
  - rewrite filter_key_update_same.
    destruct Hle as [H | [x H]]; rewrite H; [|reflexivity].
    exfalso. exact (row_exists_true_filter r t db E H).
  - rewrite filter_app, (row_exists_false_filter r t db E). simpl.
    unfold is_key. simpl. now rewrite !Z.eqb_refl.
Qed.

Lemma hook_keeps_top json_dumps msg_idx sender m silent db0 db :
  msg_idx + 1 <> 0 -> keeps_top (msg_idx + 1) db0 db ->
  keeps_top (msg_idx + 1) db0
    (snd (post_snippet_and_record_history json_dumps msg_idx sender m silent db)).
Proof.
  intros Hk [Hother [y Hy]]. unfold post_snippet_and_record_history.
  destruct silent; [exact (conj Hother (ex_intro _ y Hy))|].
  destruct (summary_and_stored json_dumps m) as [[sm st]|];
    [|exact (conj Hother (ex_intro _ y Hy))].
  rewrite !HookFacts.bind_insert. unfold ret. cbn [snd]. split.
  - intros b Hb. rewrite filter_key_insert_some_other by (right; exact Hb).
    rewrite filter_key_insert_none_other by lia. now apply Hother.
  - eexists. apply filter_key_insert_same. right. exists y.
    rewrite filter_key_insert_none_other by lia. exact Hy.
Qed.

Lemma run_hooks_keeps_top json_dumps msg_idx sends : forall db0 db,
  msg_idx + 1 <> 0 -> keeps_top (msg_idx + 1) db0 db ->
  keeps_top (msg_idx + 1) db0 (snd (run_hooks json_dumps msg_idx sends db)).
Proof.
  induction sends as [|[[sender m] silent] rest IH]; intros db0 db Hk Hkeep; [exact Hkeep|].
  simpl. unfold bind.
  pose proof (hook_keeps_top json_dumps msg_idx sender m silent db0 db Hk Hkeep) as H.
  destruct (post_snippet_and_record_history json_dumps msg_idx sender m silent db)
    as [[a|e] db'] eqn:E; simpl in H |- *.
  - now apply IH.
  - exact H.
Qed.

Lemma py_index_state {A} (l : list A) i db : snd (py_index l i db) = db.
Proof.
  unfold py_index. destruct ((0 <=? _) && (_ <? _)); [|reflexivity].
  destruct (nth_error _ _); reflexivity.
Qed.

End FinalFacts.

(** ** The top-level thread after [handle_input] *)

Module GenerateFacts.
Import FinalFacts.

(** The state after a generation that ran to its end. *)
Lemma generate_shape json_dumps msg_idx exchange response db :
  fst (generate_response_process json_dumps msg_idx exchange response db) = inl tt ->
  snd (generate_response_process json_dumps msg_idx exchange response db)
  = snd (insert_chat_message (u "assistant") response 0 (Some (msg_idx + 1))
           (snd (run_hooks json_dumps msg_idx exchange db))).
Proof.
  unfold generate_response_process, bind, get, ret. cbn beta iota.
  pose proof (py_index_state (fetch_chat_history 0 db) msg_idx db) as Hpy.
  destruct (py_index (fetch_chat_history 0 db) msg_idx db) as [[t|e] db1]; cbn in Hpy; subst db1.
  2:{ cbn. discriminate. }
  destruct (run_hooks json_dumps msg_idx exchange db) as [[[]|e] db3].
  2:{ cbn. discriminate. }
  cbn [snd]. unfold post_snippet_and_record_history, ret. cbn beta iota.
  destruct (insert_chat_message (u "assistant") response 0 (Some (msg_idx + 1)) db3)
    as [[a|e] db4]; reflexivity.
Qed.

Lemma generate_final json_dumps msg_idx exchange response db :
  msg_idx + 1 <> 0 ->
  (exists x, filter (is_key 0 (msg_idx + 1)) db = [x]) ->
  fst (generate_response_process json_dumps msg_idx exchange response db) = inl tt ->
  filter (is_key 0 (msg_idx + 1)) (snd (generate_response_process json_dumps msg_idx exchange response db))
    = [mk_row 0 (msg_idx + 1) (u "assistant") response]
  /\ forall b, b <> msg_idx + 1 ->
     filter (is_key 0 b) (snd (generate_response_process json_dumps msg_idx exchange response db))
     = filter (is_key 0 b) db.
Proof.
  intros Hk [x Hx] Hdone. rewrite (generate_shape _ _ _ _ _ Hdone).
  destruct (run_hooks_keeps_top json_dumps msg_idx exchange db db Hk
              (conj (fun _ _ => eq_refl) (ex_intro _ x Hx))) as [Hother [y Hy]].
  split.
  - apply filter_key_insert_same. right. now exists y.
  - intros b Hb. rewrite filter_key_insert_some_other by (right; exact Hb).
    now apply Hother.
Qed.

Lemma filter_key_above r b db : next_id r db <= b -> filter (is_key r b) db = [].
Proof.
  intro Hb.
  destruct (filter (is_key r b) db) as [|x rest] eqn:E; [reflexivity|exfalso].
  assert (Hin : In x (filter (is_key r b) db)) by (rewrite E; now left).
  apply filter_In in Hin as [Hin Hkey]. unfold is_key in Hkey.
  apply andb_prop in Hkey as [E1 E2]. apply Z.eqb_eq in E1, E2.
  assert (Hf : In x (fetch_chat_history r db)) by (apply filter_In; split; [exact Hin | now apply Z.eqb_eq]).
  pose proof (StoreFacts.max_id_spec r db) as S. unfold next_id in Hb.
  destruct (max_id r db) as [m|].
  - destruct S as [_ Hall]. rewrite Forall_forall in Hall. specialize (Hall x Hf). lia.
  - rewrite S in Hf. destruct Hf.
Qed.

Lemma next_id_nonneg r db :
  Forall (fun x => 0 <= id x) (fetch_chat_history r db) -> 0 <= next_id r db.
Proof.
  intro H. pose proof (StoreFacts.max_id_spec r db) as S. unfold next_id.
  destruct (max_id r db) as [m|]; [|lia].
  destruct S as [Hin _]. apply in_map_iff in Hin as [x [<- Hx]].
  rewrite Forall_forall in H. specialize (H x Hx). lia.
Qed.

End GenerateFacts.

(** C7 (amended): when a request entered by [handle_input] is stored at
    turn [r] of the top-level thread and its generation runs to its end,
    the top-level thread ends with exactly one row at turn [r], the user's
    request, and exactly one row at turn [r + 1], the assistant's final
    answer, which overwrote the ["Computing response…"] placeholder there.
    The rows of thread 0 are assumed to have non-negative turns, as the
    turns the store allocates are. *)
Theorem final_answer_after_request_turn (json_dumps : pyobj -> pystr) (db : store)
    (user_input response : pystr) (exchange : list (pystr * Msg * bool))
    (Hnonneg : Forall (fun x => 0 <= id x) (fetch_chat_history 0 db))
    (Hdone : fst (handle_input json_dumps user_input exchange response db) = inl tt) :
  let r := next_id 0 db in
  let db' := snd (handle_input json_dumps user_input exchange response db) in
  filter (is_key 0 r) db' = [mk_row 0 r (u "user") user_input]
  /\ filter (is_key 0 (r + 1)) db' = [mk_row 0 (r + 1) (u "assistant") response].
Proof.
  intros r db'. subst db'.
  pose proof (GenerateFacts.next_id_nonneg 0 db Hnonneg) as Hr. fold r in Hr.
  set (db1 := snd (insert_chat_message (u "user") user_input 0 None db)).
  assert (H1r : filter (is_key 0 r) db1 = [mk_row 0 r (u "user") user_input]).
  { unfold db1. simpl. rewrite filter_app, GenerateFacts.filter_key_above by lia.
    unfold is_key, r. simpl. now rewrite Z.eqb_refl. }
  assert (H1r1 : filter (is_key 0 (r + 1)) db1 = []).
  { unfold db1. simpl. rewrite filter_app, GenerateFacts.filter_key_above by (unfold r; lia).
    unfold is_key, r. simpl.
    destruct (Z.eqb_spec (next_id 0 db) (next_id 0 db + 1)); [lia | reflexivity]. }
  set (db2 := snd (insert_chat_message (u "info") computing_response 0 (Some (r + 1)) db1)).
  assert (Eh : handle_input json_dumps user_input exchange response db
               = generate_response_process json_dumps r exchange response db2).
  { unfold handle_input. rewrite HookFacts.bind_insert. fold r db1.
    unfold bind at 1, get. cbv beta iota.
    unfold fetch_row at 1. rewrite H1r. now rewrite HookFacts.bind_insert. }
  rewrite Eh in Hdone |- *.
  assert (H2 : filter (is_key 0 (r + 1)) db2 = [mk_row 0 (r + 1) (u "info") computing_response])
    by (apply FinalFacts.filter_key_insert_same; now left).
  destruct (GenerateFacts.generate_final json_dumps r exchange response db2
              ltac:(lia) (ex_intro _ _ H2) Hdone) as [Hfin Hother].
  split; [|exact Hfin].
  rewrite Hother by lia. unfold db2.
  rewrite FinalFacts.filter_key_insert_some_other by (right; lia). exact H1r.
Qed.

Lemma final_answer_after_request_turn_witness :
  Forall (fun x => 0 <= id x) (fetch_chat_history 0 [mk_row 0 0 (u "user") (u "hi")])
  /\ fst (handle_input json_dumps_subset (u "q") sample_exchange (u "done")
            [mk_row 0 0 (u "user") (u "hi")]) = inl tt
  /\ filter (is_key 0 2)
       (snd (handle_input json_dumps_subset (u "q") sample_exchange (u "done")
               [mk_row 0 0 (u "user") (u "hi")]))
     = [mk_row 0 2 (u "assistant") (u "done")].
Proof.
  assert (Hn : Forall (fun x => 0 <= id x) (fetch_chat_history 0 [mk_row 0 0 (u "user") (u "hi")]))
    by (repeat constructor; simpl; lia).
  assert (Hd : fst (handle_input json_dumps_subset (u "q") sample_exchange (u "done")
                      [mk_row 0 0 (u "user") (u "hi")]) = inl tt) by (vm_compute; reflexivity).
  split; [exact Hn|]. split; [exact Hd|].
  exact (proj2 (final_answer_after_request_turn json_dumps_subset
                  [mk_row 0 0 (u "user") (u "hi")] (u "q") (u "done") sample_exchange Hn Hd)).
Defined.

(** C7 counterexample: for the request stored at turn 0 of the top-level
    thread, the row at turn 0 is still the request and the final answer is
    at turn 1. *)
Lemma final_answer_not_at_request_turn :
  next_id 0 [] = 0
  /\ fetch_row 0 0 (snd (handle_input json_dumps_subset (u "q") sample_exchange (u "done") []))
     = Some (mk_row 0 0 (u "user") (u "q"))
  /\ fetch_row 1 0 (snd (handle_input json_dumps_subset (u "q") sample_exchange (u "done") []))
     = Some (mk_row 0 1 (u "assistant") (u "done")).
Proof. split; [reflexivity | split; vm_compute; reflexivity]. Qed.

(** ** The reflection termination manager *)

Module ReflectionFacts.

Lemma apply_ops_fields ops : forall m,
  max_turns (apply_ops ops m) = max_turns m /\ min_turns (apply_ops ops m) = min_turns m.
Proof.
  induction ops as [|[] rest IH]; intro m; simpl.
  - split; reflexivity.
  - destruct (IH (record_turn_taken m)) as [A B]. rewrite A, B. split; reflexivity.
  - destruct (IH (reset m)) as [A B]. rewrite A, B. split; reflexivity.
Qed.

Lemma init_fields g sm mx mn m :
  init g sm mx mn = inl m ->
  max_turns m = mx /\ min_turns m = mn /\ turns m = 0 /\ 1 <= mn
  /\ (forall k, mx = Some k -> mn <= k).
Proof.
  unfold init. destruct (Z.ltb_spec mn 1); [discriminate|].
  destruct mx as [k|].
  - destruct (Z.ltb_spec k mn); [discriminate|]. intro E. injection E as <-.
    simpl. repeat split; try lia. intros k' E; injection E as <-; lia.
  - intro E. injection E as <-. simpl. repeat split; try lia. discriminate.
Qed.

(** Past the gates, the judge asks the model once and parses its answer. *)
Lemma check_consults_model json_loads convert format_goal m history client :
  max_turns_fired m = false -> min_turns m < turns m -> history <> [] ->
  run client (check_termination json_loads convert format_goal m history)
  = parse_response json_loads
      (client ([SystemMessage (format_goal (system_message m) (goal m))]
                 ++ convert history (u "reflection")
                 ++ [AssistantMessage (reminder_text (goal m)) (u "system")])).
Proof.
  intros Hmax Hmin Hh. unfold check_termination. rewrite Hmax.
  destruct (Z.leb_spec (turns m) (min_turns m)); [lia|].
  destruct history as [|h hs]; [congruence|]. reflexivity.
Qed.

End ReflectionFacts.

(** C8: past the gates, a model answer whose text decodes to a dict with a
    boolean [is_done] and a string [reason] gives [Terminated(GOAL_REACHED,
    reason)] when [is_done] is true and [NotTerminated(reason)] when it is
    false. *)
Theorem reflection_verdict_from_json json_loads convert format_goal
    (m : manager) (history : list llm_message) (s : pystr)
    (kvs : list (pystr * pyobj)) (b : bool) (reason : pystr)
    (Hmax : max_turns_fired m = false) (Hopen : min_turns m < turns m)
    (Hhist : history <> [])
    (Hjson : json_loads s = Some (PDict kvs))
    (Hdone : py_get (u "is_done") kvs = PBool b)
    (Hreason : py_get (u "reason") kvs = PStr reason) :
  run (fun _ => CText s) (check_termination json_loads convert format_goal m history)
  = inl (if b then Terminated GOAL_REACHED reason else NotTerminated (PStr reason)).
Proof.
  rewrite ReflectionFacts.check_consults_model by assumption.
  simpl. rewrite Hjson, Hdone, Hreason. now destruct b.
Qed.

(** C10: past the gates, an empty history gives [NotTerminated()] and the
    model client is never called. *)
Theorem reflection_empty_history_no_call json_loads convert format_goal
    (m : manager)
    (Hmax : max_turns_fired m = false) (Hopen : min_turns m < turns m) :
  check_termination json_loads convert format_goal m [] = Done (inl (NotTerminated PNone)).
Proof.
  unfold check_termination. rewrite Hmax.
  destruct (Z.leb_spec (turns m) (min_turns m)); [lia | reflexivity].
Qed.


(** C2 (amended): for a manager built by [init] and then driven by any
    sequence of [record_turn_taken] and [reset], while [turns <= min_turns]
    [check_termination] answers [NotTerminated()] without calling the
    model, except when [max_turns] is set and reached, which the
    construction check only allows at [turns = min_turns = max_turns]; then
    it answers [Terminated(MAX_TURNS_REACHED)]. Stated as: when the
    max-turns check has not fired, [NotTerminated()] without a model call;
    it has fired exactly when [max_turns = min_turns = turns]; and when it
    has fired, [Terminated(MAX_TURNS_REACHED)]. *)
Theorem min_turns_gate_except_max_turns json_loads convert format_goal
    (g sm : pystr) (mx : option Z) (mn : Z) (m0 : manager) (ops : list turn_op)
    (history : list llm_message)
    (Hinit : init g sm mx mn = inl m0)
    (Hle : turns (apply_ops ops m0) <= mn) :
  (max_turns_fired (apply_ops ops m0) = false ->
   check_termination json_loads convert format_goal (apply_ops ops m0) history
   = Done (inl (NotTerminated PNone)))
  /\ (max_turns_fired (apply_ops ops m0) = true
      <-> mx = Some mn /\ turns (apply_ops ops m0) = mn)
  /\ (max_turns_fired (apply_ops ops m0) = true ->
      check_termination json_loads convert format_goal (apply_ops ops m0) history
      = Done (inl (Terminated MAX_TURNS_REACHED (u "Max turns reached.")))).
Proof.
  destruct (ReflectionFacts.init_fields _ _ _ _ _ Hinit) as [Hmx [Hmn [_ [_ Hord]]]].
  destruct (ReflectionFacts.apply_ops_fields ops m0) as [Emx Emn].
  set (m := apply_ops ops m0) in *.
  assert (Hf : max_turns_fired m
               = match mx with Some k => k <=? turns m | None => false end)
    by (unfold max_turns_fired; now rewrite Emx, Hmx).
  split; [|split].
  - intro Hno. unfold check_termination. rewrite Hno, Emn, Hmn.
    destruct (Z.leb_spec (turns m) mn); [reflexivity|lia].
  - rewrite Hf. destruct mx as [k|].
    + specialize (Hord k eq_refl). destruct (Z.leb_spec k (turns m)).
      * split; [intros _; split; [f_equal|]; lia | reflexivity].
      * split; [discriminate | intros [E Ht]; injection E as <-; lia].
    + split; [discriminate | intros [E _]; discriminate E].
  - intro Hyes. unfold check_termination. now rewrite Hyes.
Qed.

Example judged_done :
  judged [UserMessage (u "hi") (u "user")] (jtext "{'is_done': true, 'reason': 'done'}")
  = inl (Terminated GOAL_REACHED (u "done")).
Proof. vm_compute. reflexivity. Qed.

Lemma reflection_verdict_from_json_witness :
  max_turns_fired judge_after_two_turns = false
  /\ min_turns judge_after_two_turns < turns judge_after_two_turns
  /\ [UserMessage (u "hi") (u "user")] <> []
  /\ json_loads_subset (jtext "{'is_done': false, 'reason': 'not run yet'}")
     = Some (PDict [(u "is_done", PBool false); (u "reason", PStr (u "not run yet"))])
  /\ judged [UserMessage (u "hi") (u "user")] (jtext "{'is_done': false, 'reason': 'not run yet'}")
     = inl (NotTerminated (PStr (u "not run yet"))).
Proof.
  split; [reflexivity|]. split; [simpl; lia|]. split; [discriminate|].
  split; [vm_compute; reflexivity|].
  exact (reflection_verdict_from_json json_loads_subset convert_keep format_goal_field
           judge_after_two_turns [UserMessage (u "hi") (u "user")]
           (jtext "{'is_done': false, 'reason': 'not run yet'}")
           [(u "is_done", PBool false); (u "reason", PStr (u "not run yet"))]
           false (u "not run yet") eq_refl ltac:(simpl; lia) ltac:(discriminate)
           ltac:(vm_compute; reflexivity) eq_refl eq_refl).
Defined.

Lemma reflection_empty_history_no_call_witness :
  max_turns_fired judge_after_two_turns = false
  /\ min_turns judge_after_two_turns < turns judge_after_two_turns
  /\ check_termination json_loads_subset convert_keep format_goal_field judge_after_two_turns []
     = Done (inl (NotTerminated PNone)).
Proof.
  split; [reflexivity|]. split; [simpl; lia|].
  exact (reflection_empty_history_no_call json_loads_subset convert_keep format_goal_field
           judge_after_two_turns eq_refl ltac:(simpl; lia)).
Defined.



Lemma min_turns_gate_except_max_turns_witness :
  init (u "g") (u "s") (Some 1) 1 = inl (mk_manager (u "g") (u "s") (Some 1) 0 1)
  /\ turns (apply_ops [OpRecordTurn] (mk_manager (u "g") (u "s") (Some 1) 0 1)) <= 1
  /\ max_turns_fired (apply_ops [OpRecordTurn] (mk_manager (u "g") (u "s") (Some 1) 0 1)) = true
  /\ check_termination json_loads_subset convert_keep format_goal_field
       (apply_ops [OpRecordTurn] (mk_manager (u "g") (u "s") (Some 1) 0 1))
       [UserMessage (u "hi") (u "user")]
     = Done (inl (Terminated MAX_TURNS_REACHED (u "Max turns reached."))).
Proof.
  assert (Hi : init (u "g") (u "s") (Some 1) 1 = inl (mk_manager (u "g") (u "s") (Some 1) 0 1))
    by reflexivity.
  assert (Hl : turns (apply_ops [OpRecordTurn] (mk_manager (u "g") (u "s") (Some 1) 0 1)) <= 1)
    by (simpl; lia).
  assert (Hy : max_turns_fired (apply_ops [OpRecordTurn] (mk_manager (u "g") (u "s") (Some 1) 0 1))
               = true) by reflexivity.
  split; [exact Hi|]. split; [exact Hl|]. split; [exact Hy|].
  exact (proj2 (proj2 (min_turns_gate_except_max_turns json_loads_subset convert_keep
           format_goal_field (u "g") (u "s") (Some 1) 1 _ [OpRecordTurn]
           [UserMessage (u "hi") (u "user")] Hi Hl)) Hy).
Defined.

(** C2 counterexample: built with [max_turns = min_turns = 1], after one
    turn [turns = 1 <= min_turns] and still the answer is
    [Terminated(MAX_TURNS_REACHED)]. *)
Lemma min_turns_gate_counterexample :
  init (u "g") (u "s") (Some 1) 1 = inl (mk_manager (u "g") (u "s") (Some 1) 0 1)
  /\ turns (apply_ops [OpRecordTurn] (mk_manager (u "g") (u "s") (Some 1) 0 1)) <= 1
  /\ check_termination json_loads_subset convert_keep format_goal_field
       (apply_ops [OpRecordTurn] (mk_manager (u "g") (u "s") (Some 1) 0 1))
       [UserMessage (u "hi") (u "user")]
     = Done (inl (Terminated MAX_TURNS_REACHED (u "Max turns reached."))).
Proof. split; [reflexivity | split; [simpl; lia | reflexivity]]. Qed.

(** ** The reply rule *)

Module EmptyInputFacts.

Lemma scan_empty_spec ms : forall (k : nat) flag,
  scan_empty (Z.of_nat k) flag ms =
  match k with
  | O => flag
  | S _ =>
      match filter (fun m => str_eqb (msg_role m) (u "user")) ms with
      | [] => flag
      | us => Some (forallb is_empty (firstn k us))
      end
  end.
Proof.
  induction ms as [|m rest IH]; intros k flag.
  - destruct k; reflexivity.
  - destruct k as [|k]; [reflexivity|].
    cbn [scan_empty]. destruct (Z.eqb_spec (Z.of_nat (S k)) 0) as [E|_]; [lia|].
    cbn [filter]. destruct (str_eqb (msg_role m) (u "user")).
    + unfold is_empty at 1. simpl firstn. simpl forallb.
      destruct (Z.of_nat (length (msg_text m)) =? 0).
      * replace (Z.of_nat (S k) - 1) with (Z.of_nat k) by lia. rewrite IH.
        destruct k as [|k]; simpl.
        -- reflexivity.
        -- destruct (filter _ rest); reflexivity.
      * reflexivity.
    + rewrite IH. reflexivity.
Qed.

Lemma forallb_is_empty l :
  forallb is_empty l = true <-> Forall (fun m => msg_text m = []) l.
Proof.
  rewrite forallb_forall, Forall_forall. unfold is_empty.
  split; intros H x Hx; specialize (H x Hx).
  - apply Z.eqb_eq in H. destruct (msg_text x); [reflexivity | simpl in H; lia].
  - rewrite H. reflexivity.
Qed.

End EmptyInputFacts.

(** C3 (as a defect): [terminate_on_consecutive_empty] stops exactly when
    there is at least one [user] message and all of the (at most two) most
    recent [user] messages are empty; so a history with a single, empty
    [user] message already stops it, although the rule walks back for two. *)
Theorem consecutive_empty_rule_on_code :
  (forall messages,
     fst (terminate_on_consecutive_empty messages) = true
     <-> user_msgs messages <> []
         /\ Forall (fun m => msg_text m = []) (firstn 2 (user_msgs messages)))
  /\ terminate_on_consecutive_empty [mk_msg (u "user") []] = (true, Some (u "TERMINATE")).
Proof.
  split; [|reflexivity].
  intro messages. unfold terminate_on_consecutive_empty, user_msgs. cbv zeta.
  change (scan_empty 2 None (rev messages)) with (scan_empty (Z.of_nat 2) None (rev messages)).
  rewrite (EmptyInputFacts.scan_empty_spec (rev messages) 2 None).
  rewrite <- EmptyInputFacts.forallb_is_empty.
  destruct (filter _ (rev messages)) as [|m ms].
  - simpl. split; [discriminate | intros [H _]; congruence].
  - destruct (forallb is_empty (firstn 2 (m :: ms))); simpl.
    + split; [intros _; split; [discriminate | reflexivity] | reflexivity].
    + split; [discriminate | intros [_ H]; discriminate].
Qed.

(** ** Further properties of the code *)

Module ExtraFacts.
Import FinalFacts.

(** The turn an [insert_chat_message] call returns. *)
Lemma insert_returns ro co r i db :
  fst (insert_chat_message ro co r i db) = inl (match i with Some t => t | None => next_id r db end).
Proof.
  unfold insert_chat_message. destruct i as [t|]; [destruct (row_exists r t db)|]; reflexivity.
Qed.

Lemma filter_key_insert_other ro co r i db a b :
  a <> r \/ b <> (match i with Some t => t | None => next_id r db end) ->
  filter (is_key a b) (snd (insert_chat_message ro co r i db)) = filter (is_key a b) db.
Proof.
  intro Hne. destruct i as [t|].
  - now apply filter_key_insert_some_other.
  - simpl. rewrite filter_app. simpl. unfold is_key at 2. simpl.
    destruct (Z.eqb_spec r a), (Z.eqb_spec (next_id r db) b); simpl;
      try (now rewrite app_nil_r). lia.
Qed.

Lemma row_exists_filter r t db :
  row_exists r t db = false <-> filter (is_key r t) db = [].
Proof.
  split; [apply row_exists_false_filter|].
  intro H. destruct (row_exists r t db) eqn:E; [|reflexivity].
  exfalso. exact (row_exists_true_filter r t db E H).
Qed.

Lemma rev_filter {A} (f : A -> bool) l : rev (filter f l) = filter f (rev l).
Proof.
  induction l as [|x l IH]; [reflexivity|].
  simpl. rewrite filter_app. simpl. destruct (f x); simpl; rewrite IH; [reflexivity|].
  now rewrite app_nil_r.
Qed.

Lemma filter_filter_same {A} (f : A -> bool) l : filter f (filter f l) = filter f l.
Proof.
  induction l as [|x l IH]; [reflexivity|].
  simpl. destruct (f x) eqn:E; simpl; [rewrite E, IH|exact IH]; reflexivity.
Qed.

Lemma init_built g sm mx mn m :
  init g sm mx mn = inl m -> m = mk_manager g sm mx 0 mn.
Proof.
  unfold init. destruct (mn <? 1); [discriminate|].
  destruct mx as [k|]; [destruct (k <? mn); [discriminate|]|]; congruence.
Qed.

Lemma apply_ops_no_reset ops : forall m,
  ~ In OpReset ops ->
  apply_ops ops m
  = mk_manager (goal m) (system_message m) (max_turns m)
      (turns m + Z.of_nat (length ops)) (min_turns m).
Proof.
  induction ops as [|[] rest IH]; intros m Hn; simpl.
  - destruct m; simpl. f_equal. lia.
  - rewrite IH by (intro H; apply Hn; now right). simpl. f_equal. lia.
  - exfalso. apply Hn. now left.
Qed.

Lemma apply_ops_app ops1 ops2 m : apply_ops (ops1 ++ ops2) m = apply_ops ops2 (apply_ops ops1 m).
Proof.
  revert m. induction ops1 as [|[] rest IH]; intro m; simpl; [reflexivity| |]; apply IH.
Qed.

Lemma apply_ops_frame ops : forall m,
  goal (apply_ops ops m) = goal m /\ system_message (apply_ops ops m) = system_message m.
Proof.
  induction ops as [|[] rest IH]; intro m; simpl; [split; reflexivity| |].
  - destruct (IH (record_turn_taken m)) as [A B]. rewrite A, B. split; reflexivity.
  - destruct (IH (reset m)) as [A B]. rewrite A, B. split; reflexivity.
Qed.

Lemma split_comma_cons s : exists x xs, split_comma s = x :: xs.
Proof.
  destruct s as [|c r]; simpl; [eauto|].
  destruct (c =? 44); [eauto|]. destruct (split_comma r); eauto.
Qed.

End ExtraFacts.

(** X1: [insert_chat_message] returns the turn it wrote ([id] when given,
    else the next free turn) and [fetch_row] at that turn then finds the
    row just written. *)
Theorem insert_then_fetch_row (ro co : pystr) (r : Z) (i : option Z) (db : store) :
  let t := match i with Some t => t | None => next_id r db end in
  fst (insert_chat_message ro co r i db) = inl t
  /\ fetch_row t r (snd (insert_chat_message ro co r i db)) = Some (mk_row r t ro co).
Proof.
  intro t. split; [apply ExtraFacts.insert_returns|].
  destruct i as [t'|]; [apply HookFacts.fetch_row_insert_some|].
  unfold t. simpl. unfold fetch_row. rewrite filter_app.
  rewrite GenerateFacts.filter_key_above by lia. simpl.
  unfold is_key. simpl. now rewrite !Z.eqb_refl.
Qed.

(** X2: an [insert_chat_message] call changes no row at any key other than
    the [(root_id, id)] it writes. *)
Theorem insert_other_rows_unchanged (ro co : pystr) (r : Z) (i : option Z) (db : store)
    (a b : Z) (Hne : a <> r \/ b <> match i with Some t => t | None => next_id r db end) :
  filter (is_key a b) (snd (insert_chat_message ro co r i db)) = filter (is_key a b) db.
Proof. now apply ExtraFacts.filter_key_insert_other. Qed.

Lemma insert_other_rows_unchanged_witness :
  (0 <> 1 \/ 0 <> next_id 1 [mk_row 0 0 (u "user") (u "q")])
  /\ filter (is_key 0 0)
       (snd (insert_chat_message (u "user") (u "a") 1 None [mk_row 0 0 (u "user") (u "q")]))
     = [mk_row 0 0 (u "user") (u "q")].
Proof.
  assert (H : 0 <> 1 \/ 0 <> next_id 1 [mk_row 0 0 (u "user") (u "q")]) by (left; lia).
  split; [exact H|].
  exact (insert_other_rows_unchanged (u "user") (u "a") 1 None [mk_row 0 0 (u "user") (u "q")] 0 0 H).
Defined.

(** X3: [insert_chat_message] never removes or reorders rows: the keys of
    the table after the call are the keys before it, followed by the key
    written when no row had it (an upsert of an existing row adds none). *)
Theorem insert_keeps_existing_keys (ro co : pystr) (r : Z) (i : option Z) (db : store) :
  let t := match i with Some t => t | None => next_id r db end in
  map key (snd (insert_chat_message ro co r i db))
  = map key db ++ (if row_exists r t db then [] else [(r, t)]).
Proof.
  intro t. unfold t. destruct i as [t'|]; simpl.
  - destruct (row_exists r t' db); simpl.
    + rewrite StoreFacts.keys_update. now rewrite app_nil_r.
    + now rewrite map_app.
  - replace (row_exists r (next_id r db) db) with false.
    + now rewrite map_app.
    + symmetry. apply ExtraFacts.row_exists_filter, GenerateFacts.filter_key_above. lia.
Qed.

(** X4: a non-silent hook call on a dict message raises [ValueError] exactly
    when the message has neither a non-empty ["content"] nor a non-empty
    ["tool_calls"], and then it stores nothing. *)
Theorem hook_value_error_iff (json_dumps : pyobj -> pystr) (msg_idx : Z) (sender : pystr)
    (c : option pystr) (tc : option (list pyobj)) (db : store) :
  post_snippet_and_record_history json_dumps msg_idx sender (MDict c tc) false db
    = (inr ValueError, db)
  <-> (forall s, c = Some s -> s = []) /\ (forall l, tc = Some l -> l = []).
Proof.
  unfold post_snippet_and_record_history, summary_and_stored.
  destruct c as [[|x s]|]; destruct tc as [[|y l]|]; cbv iota beta;
    try rewrite !HookFacts.bind_insert; split; intro H;
    first
      [ discriminate H
      | reflexivity
      | split; intros ? E; first [ discriminate E | injection E as <-; reflexivity ]
      | destruct H as [H1 H2];
        first [ discriminate (H1 _ eq_refl) | discriminate (H2 _ eq_refl) ] ].
Qed.

(** X5: [generate_response_process(msg_idx)] with [msg_idx] outside the
    top-level thread (as a Python index) raises [IndexError] and stores
    nothing. *)
Theorem generate_index_error (json_dumps : pyobj -> pystr) (msg_idx : Z)
    (exchange : list (pystr * Msg * bool)) (response : pystr) (db : store)
    (Hout : Z.of_nat (length (fetch_chat_history 0 db)) <= msg_idx
            \/ msg_idx < - Z.of_nat (length (fetch_chat_history 0 db))) :
  generate_response_process json_dumps msg_idx exchange response db = (inr IndexError, db).
Proof.
  unfold generate_response_process, bind, get. cbv beta iota.
  unfold py_index.
  set (n := Z.of_nat (length (fetch_chat_history 0 db))).
  replace ((0 <=? (if msg_idx <? 0 then msg_idx + n else msg_idx))
           && ((if msg_idx <? 0 then msg_idx + n else msg_idx) <? n)) with false.
  - reflexivity.
  - symmetry. fold n in Hout.
    destruct (Z.ltb_spec msg_idx 0); apply andb_false_iff;
      [left; apply Z.leb_gt | right; apply Z.ltb_ge]; lia.
Qed.

Lemma generate_index_error_witness :
  (Z.of_nat (length (fetch_chat_history 0 [mk_row 0 0 (u "user") (u "q")])) <= 1
   \/ 1 < - Z.of_nat (length (fetch_chat_history 0 [mk_row 0 0 (u "user") (u "q")])))
  /\ generate_response_process json_dumps_subset 1 sample_exchange (u "done")
       [mk_row 0 0 (u "user") (u "q")]
     = (inr IndexError, [mk_row 0 0 (u "user") (u "q")]).
Proof.
  assert (H : Z.of_nat (length (fetch_chat_history 0 [mk_row 0 0 (u "user") (u "q")])) <= 1
              \/ 1 < - Z.of_nat (length (fetch_chat_history 0 [mk_row 0 0 (u "user") (u "q")])))
    by (left; simpl; lia).
  split; [exact H|].
  exact (generate_index_error json_dumps_subset 1 sample_exchange (u "done")
           [mk_row 0 0 (u "user") (u "q")] H).
Defined.

(** X6: [terminate_on_consecutive_empty] only looks at [user] messages:
    dropping every message of another role never changes its answer. *)
Theorem consecutive_empty_ignores_other_roles (messages : list chat_msg) :
  terminate_on_consecutive_empty
    (filter (fun m => str_eqb (msg_role m) (u "user")) messages)
  = terminate_on_consecutive_empty messages.
Proof.
  unfold terminate_on_consecutive_empty. cbv zeta.
  change (scan_empty 2 None) with (scan_empty (Z.of_nat 2) None).
  rewrite !EmptyInputFacts.scan_empty_spec, ExtraFacts.rev_filter, ExtraFacts.filter_filter_same.
  reflexivity.
Qed.

(** X7: [reset()] after any sequence of [record_turn_taken()] and
    [reset()] brings a constructed manager back to its state right after
    construction. *)
Theorem reset_restores_constructed (g sm : pystr) (mx : option Z) (mn : Z) (m0 : manager)
    (ops : list turn_op) (Hinit : init g sm mx mn = inl m0) :
  apply_ops (ops ++ [OpReset]) m0 = m0.
Proof.
  rewrite ExtraFacts.apply_ops_app. simpl.
  destruct (ExtraFacts.apply_ops_frame ops m0) as [Eg Es].
  destruct (ReflectionFacts.apply_ops_fields ops m0) as [Emx Emn].
  rewrite (ExtraFacts.init_built _ _ _ _ _ Hinit) in *.
  unfold reset. simpl in *. now rewrite Eg, Es, Emx, Emn.
Qed.

Lemma reset_restores_constructed_witness :
  init (u "g") (u "s") (Some 3) 2 = inl (mk_manager (u "g") (u "s") (Some 3) 0 2)
  /\ apply_ops [OpRecordTurn; OpRecordTurn; OpReset; OpRecordTurn; OpReset]
       (mk_manager (u "g") (u "s") (Some 3) 0 2)
     = mk_manager (u "g") (u "s") (Some 3) 0 2.
Proof.
  assert (H : init (u "g") (u "s") (Some 3) 2 = inl (mk_manager (u "g") (u "s") (Some 3) 0 2))
    by reflexivity.
  split; [exact H|].
  exact (reset_restores_constructed (u "g") (u "s") (Some 3) 2 _
           [OpRecordTurn; OpRecordTurn; OpReset; OpRecordTurn] H).
Defined.

(** X8: the turn count of a constructed manager is the number of
    [record_turn_taken()] calls since construction or since the last
    [reset()]. *)
Theorem turns_count_since_reset (g sm : pystr) (mx : option Z) (mn : Z) (m0 : manager)
    (ops1 ops2 : list turn_op) (Hinit : init g sm mx mn = inl m0)
    (Hnoreset : ~ In OpReset ops2) :
  turns (apply_ops ops2 m0) = Z.of_nat (length ops2)
  /\ turns (apply_ops (ops1 ++ OpReset :: ops2) m0) = Z.of_nat (length ops2).
Proof.
  rewrite (ExtraFacts.init_built _ _ _ _ _ Hinit).
  rewrite ExtraFacts.apply_ops_app. simpl.
  rewrite !ExtraFacts.apply_ops_no_reset by exact Hnoreset. simpl. split; lia.
Qed.

Lemma turns_count_since_reset_witness :
  init (u "g") (u "s") None 1 = inl (mk_manager (u "g") (u "s") None 0 1)
  /\ ~ In OpReset [OpRecordTurn; OpRecordTurn]
  /\ turns (apply_ops [OpRecordTurn; OpReset; OpRecordTurn; OpRecordTurn]
              (mk_manager (u "g") (u "s") None 0 1)) = 2.
Proof.
  assert (H1 : init (u "g") (u "s") None 1 = inl (mk_manager (u "g") (u "s") None 0 1))
    by reflexivity.
  assert (H2 : ~ In OpReset [OpRecordTurn; OpRecordTurn])
    by (simpl; intros [E1|[E2|[]]]; [discriminate E1 | discriminate E2]).
  split; [exact H1|]. split; [exact H2|].
  exact (proj2 (turns_count_since_reset (u "g") (u "s") None 1 _ [OpRecordTurn] _ H1 H2)).
Defined.

(** X9: [check_termination] only ever answers [Terminated] with
    [MAX_TURNS_REACHED] (when [max_turns] is reached, without calling the
    model) or [GOAL_REACHED] (past both gates, on a non-empty history); it
    never answers [CONSECUTIVE_EMPTY_INPUT] or [UNSET]. *)
Theorem check_terminated_reasons json_loads convert format_goal
    (m : manager) (history : list llm_message) (client : list llm_message -> create_content)
    (reason : TerminationReason) (s : pystr)
    (Hterm : run client (check_termination json_loads convert format_goal m history)
             = inl (Terminated reason s)) :
  (reason = MAX_TURNS_REACHED /\ max_turns_fired m = true /\ s = u "Max turns reached.")
  \/ (reason = GOAL_REACHED /\ max_turns_fired m = false /\ min_turns m < turns m
      /\ history <> []).
Proof.
  unfold check_termination in Hterm. destruct (max_turns_fired m) eqn:Ef.
  - simpl in Hterm. injection Hterm as <- <-. left. now split.
  - destruct (Z.leb_spec (turns m) (min_turns m)); [discriminate|].
    destruct history as [|h hs]; [discriminate|].
    simpl in Hterm. unfold parse_response in Hterm.
    destruct (client _) as [t|calls]; [|discriminate].
    destruct (json_loads t) as [[| | | | | |kvs]|]; try discriminate.
    destruct (py_get (u "is_done") kvs); try discriminate.
    destruct (py_get (u "reason") kvs); try discriminate.
    destruct b; [|discriminate]. injection Hterm as <- _.
    right. repeat split; try assumption; discriminate.
Qed.

Lemma check_terminated_reasons_witness :
  judged [UserMessage (u "hi") (u "user")] (jtext "{'is_done': true, 'reason': 'done'}")
  = inl (Terminated GOAL_REACHED (u "done"))
  /\ min_turns judge_after_two_turns < turns judge_after_two_turns.
Proof.
  assert (H : judged [UserMessage (u "hi") (u "user")] (jtext "{'is_done': true, 'reason': 'done'}")
              = inl (Terminated GOAL_REACHED (u "done"))) by (vm_compute; reflexivity).
  split; [exact H|].
  destruct (check_terminated_reasons json_loads_subset convert_keep format_goal_field
              judge_after_two_turns [UserMessage (u "hi") (u "user")]
              (fun _ => CText (jtext "{'is_done': true, 'reason': 'done'}")) _ _ H)
    as [[E _] | [_ [_ [Hlt _]]]]; [discriminate E | exact Hlt].
Defined.

Module SplitFacts.

Lemma join_comma_cons c x xs : join_comma ((c :: x) :: xs) = c :: join_comma (x :: xs).
Proof. destruct xs; reflexivity. Qed.

Lemma join_split s : join_comma (split_comma s) = s.
Proof.
  induction s as [|c r IH]; [reflexivity|]. simpl.
  destruct (ExtraFacts.split_comma_cons r) as [x [xs Ex]].
  destruct (Z.eqb_spec c 44) as [->|Hc].
  - rewrite Ex in IH |- *. simpl. rewrite <- IH. destruct xs; reflexivity.
  - rewrite Ex in IH |- *. change (join_comma ((c :: x) :: xs) = c :: r).
    rewrite join_comma_cons. f_equal. exact IH.
Qed.

Lemma length_split s : length (split_comma s) = S (count_occ Z.eq_dec s 44).
Proof.
  induction s as [|c r IH]; [reflexivity|]. simpl.
  destruct (ExtraFacts.split_comma_cons r) as [x [xs Ex]].
  destruct (Z.eqb_spec c 44) as [->|Hc].
  - destruct (Z.eq_dec 44 44); [|congruence]. simpl. now rewrite IH.
  - destruct (Z.eq_dec c 44); [congruence|]. rewrite Ex in IH |- *. exact IH.
Qed.

Lemma split_no_comma s : Forall (fun p => ~ In 44 p) (split_comma s).
Proof.
  induction s as [|c r IH]; simpl; [repeat constructor; intros []|].
  destruct (ExtraFacts.split_comma_cons r) as [x [xs Ex]].
  destruct (Z.eqb_spec c 44) as [->|Hc].
  - constructor; [intros []|exact IH].
  - rewrite Ex in IH |- *. inversion IH as [|? ? Hx Hxs]; subst.
    constructor; [|exact Hxs]. intros [E|E]; [lia|exact (Hx E)].
Qed.

End SplitFacts.

(** X10: the states [Profiler.profile_message] extracts from the model's
    text are its comma-separated pieces, as many as the text has commas
    plus one; each name is comma-free, joining the names with commas gives
    the text back, and each state has an empty description and no tags. *)
Theorem profile_states_split (response : pystr) :
  let states := profile_message_states response in
  join_comma (map state_name states) = response
  /\ length states = S (count_occ Z.eq_dec response 44)
  /\ Forall (fun st => ~ In 44 (state_name st) /\ state_description st = []
                       /\ state_tags st = Some []) states.
Proof.
  intro states. unfold states, profile_message_states.
  rewrite map_map. simpl. rewrite map_id. split; [apply SplitFacts.join_split|].
  rewrite length_map. split; [apply SplitFacts.length_split|].
  apply Forall_map. eapply Forall_impl; [|apply SplitFacts.split_no_comma].
  intros p Hp. simpl. now split.
Qed.

Module ComposeFacts.

Lemma screen_classes_set c h : screen_classes (Some c) h <> None.
Proof.
  revert c. induction h as [|m rest IH]; intro c; simpl; [discriminate|].
  destruct (str_eqb (role m) (u "assistant")), (str_eqb (role m) (u "user"));
    destruct (screen_classes _ rest) eqn:E; try discriminate; exfalso; exact (IH _ E).
Qed.

End ComposeFacts.

(** X11: [ChatScreen.compose] fails with [UnboundLocalError] on a thread
    exactly when the thread's first message is neither [assistant] nor
    [user]: [msg_class] is only set by those roles and later messages of
    other roles reuse the last class set. *)
Theorem compose_unbound_class (history : list row) :
  screen_classes None history = None
  <-> exists m rest, history = m :: rest
       /\ str_eqb (role m) (u "assistant") = false /\ str_eqb (role m) (u "user") = false.
Proof.
  destruct history as [|m rest]; simpl.
  - split; [discriminate | intros [m [rest [E _]]]; discriminate E].
  - split.
    + intro H.
      destruct (str_eqb (role m) (u "assistant")) eqn:Ea, (str_eqb (role m) (u "user")) eqn:Eu;
        try (match type of H with
             | context [screen_classes ?c rest] =>
                 destruct (screen_classes c rest) eqn:E;
                 [discriminate H | exfalso; exact (ComposeFacts.screen_classes_set _ _ E)]
             end).
      now exists m, rest.
    + intros [m' [rest' [E [Ea Eu]]]]. injection E as <- <-. now rewrite Ea, Eu.
Qed.

(** X12: on a thread of [user] and [assistant] messages only,
    [ChatScreen.compose] gives each message the class
    ["<role>-message message"]. *)
Theorem compose_classes_by_role (history : list row)
    (Hroles : Forall (fun m => role m = u "user" \/ role m = u "assistant") history) :
  forall c, screen_classes c history = Some (map (fun m => role m ++ u "-message message") history).
Proof.
  induction Hroles as [|m rest Hm Hrest IH]; intro c; [reflexivity|].
  simpl. destruct Hm as [E|E]; rewrite E; simpl; rewrite IH; reflexivity.
Qed.

Lemma compose_classes_by_role_witness :
  Forall (fun m => role m = u "user" \/ role m = u "assistant")
    [mk_row 3 0 (u "user") (u "q"); mk_row 3 1 (u "assistant") (u "a")]
  /\ screen_classes None [mk_row 3 0 (u "user") (u "q"); mk_row 3 1 (u "assistant") (u "a")]
     = Some [u "user-message message"; u "assistant-message message"].
Proof.
  assert (H : Forall (fun m => role m = u "user" \/ role m = u "assistant")
                [mk_row 3 0 (u "user") (u "q"); mk_row 3 1 (u "assistant") (u "a")])
    by (repeat constructor; simpl; auto).
  split; [exact H|].
  exact (compose_classes_by_role _ H None).
Defined.

(** X13: once the later part of a history holds at least two [user]
    messages, [terminate_on_consecutive_empty] gives the same answer
    whatever came before it. *)
Theorem consecutive_empty_last_two_users (earlier later : list chat_msg)
    (Htwo : (2 <= length (user_msgs later))%nat) :
  terminate_on_consecutive_empty (earlier ++ later) = terminate_on_consecutive_empty later.
Proof.
  unfold terminate_on_consecutive_empty. cbv zeta.
  change (scan_empty 2 None) with (scan_empty (Z.of_nat 2) None).
  rewrite !EmptyInputFacts.scan_empty_spec, rev_app_distr, filter_app.
  unfold user_msgs in Htwo.
  destruct (filter _ (rev later)) as [|a [|b l]]; simpl in Htwo; try lia.
  reflexivity.
Qed.

Lemma consecutive_empty_last_two_users_witness :
  (2 <= length (user_msgs [mk_msg (u "user") []; mk_msg (u "assistant") (u "ok");
                           mk_msg (u "user") []]))%nat
  /\ terminate_on_consecutive_empty
       ([mk_msg (u "user") (u "hi")]
          ++ [mk_msg (u "user") []; mk_msg (u "assistant") (u "ok"); mk_msg (u "user") []])
     = (true, Some (u "TERMINATE")).
Proof.
  assert (H : (2 <= length (user_msgs [mk_msg (u "user") []; mk_msg (u "assistant") (u "ok");
                                       mk_msg (u "user") []]))%nat) by (vm_compute; lia).
  split; [exact H|].
  rewrite (consecutive_empty_last_two_users _ _ H). reflexivity.
Defined.

(** X14: a history whose last message is a non-empty [user] message never
    stops on [terminate_on_consecutive_empty]. *)
Theorem consecutive_empty_nonempty_last_user (messages : list chat_msg) (text : pystr)
    (Htext : text <> []) :
  terminate_on_consecutive_empty (messages ++ [mk_msg (u "user") text]) = (false, None).
Proof.
  unfold terminate_on_consecutive_empty. cbv zeta.
  change (scan_empty 2 None) with (scan_empty (Z.of_nat 2) None).
  rewrite EmptyInputFacts.scan_empty_spec, rev_app_distr. simpl.
  unfold is_empty at 1. simpl.
  destruct text as [|c t]; [congruence|]. simpl.
  destruct (Z.eqb_spec (Z.pos (Pos.of_succ_nat (length t))) 0); [lia|]. reflexivity.
Qed.

Lemma consecutive_empty_nonempty_last_user_witness :
  u "hi" <> []
  /\ terminate_on_consecutive_empty
       ([mk_msg (u "user") []; mk_msg (u "user") []] ++ [mk_msg (u "user") (u "hi")])
     = (false, None).
Proof.
  assert (H : u "hi" <> []) by discriminate.
  split; [exact H|].
  exact (consecutive_empty_nonempty_last_user [mk_msg (u "user") []; mk_msg (u "user") []] _ H).
Defined.
